(** * sw-alert-engine: the Ray-based gRPC ingestion server

    A shallow embedding of
    [engine/providers/skywalking/log/grpc/servers/ray_server.py]:
    the actor class [GRPCIngestorActor], the context manager
    [_reserve_port] and the supervisor [main].

    Python's effects are written out:
    - the driver process is a state-and-exception monad [M] over a [World]
      holding the process's sockets, the Ray actors, the order in which
      actor methods were dispatched, and the logger's output;
    - an actor method is a function [Actor -> task A * Actor]: a coroutine
      either returns, raises, or is left suspended on an [await];
    - everything the operating system, Redis and Ray decide is read from an
      environment record [Env]. *)

From Stdlib Require Import NArith ZArith Bool List String Lia.
From stdpp Require Import base list strings pretty.

Local Open Scope string_scope.
Local Open Scope list_scope.

(** ** Exceptions and results *)

Inductive exn :=
  | AttributeError
  | OSError
  | KeyboardInterrupt
  | ValueError
  | RuntimeError
  | RayTaskError.

(** [str(e)], as the logger prints an exception. *)
Definition exn_str (e : exn) : string :=
  match e with
  | AttributeError => "module 'socket' has no attribute 'SO_REUSEPORT'"
  | OSError => "[Errno 98] Address already in use"
  | KeyboardInterrupt => ""
  | ValueError => "Redis URL could not be parsed"
  | RuntimeError => "Failed to bind to address"
  | RayTaskError => "ray task failed"
  end.

#[global] Instance exn_eq_dec : EqDecision exn.
Proof. solve_decision. Defined.

(** What a statement of the driver leaves behind. *)
Inductive outcome (A : Type) :=
  | Ret (a : A)
  | Raise (e : exn).
Arguments Ret {A} a.
Arguments Raise {A} e.

(** What a coroutine of an actor leaves behind: [Suspended] is an [await]
    that has not been resumed. *)
Inductive task (A : Type) :=
  | Returned (a : A)
  | Raised (e : exn)
  | Suspended.
Arguments Returned {A} a.
Arguments Raised {A} e.
Arguments Suspended {A}.

(** ** The actor: [GRPCIngestorActor] *)

(** [secrets_temp.redis_info], a dict read at four keys. *)
Record RedisInfo := mkRedisInfo {
  REDIS_HOSTNAME : string;
  REDIS_PORT : string;
  username : string;
  password : string
}.

(** The client [aioredis.from_url] returns. *)
Record RedisConn := mkRedisConn {
  conn_url : string;
  conn_retry_on_timeout : bool;
  conn_username : string;
  conn_password : string
}.

(** A [grpc.aio.server]: its channel options, the servicers added to it
    (a [LogIngestorServicer] is its [redis_conn]), the addresses added with
    [add_insecure_port], and whether [start] and [stop] were called on it. *)
Record Server := mkServer {
  options : list (string * Z);
  servicers : list RedisConn;
  ports : list string;
  started : bool;
  stopped : bool
}.

Definition grpc_aio_server (opts : list (string * Z)) : Server :=
  mkServer opts [] [] false false.

Definition add_LogExportServiceServicer_to_server
    (servicer : RedisConn) (s : Server) : Server :=
  mkServer (options s) (servicers s ++ [servicer]) (ports s)
           (started s) (stopped s).

(** [server.add_insecure_port(address)]: the server with the address
    added, or nothing when the address cannot be bound ([binds] is false)
    and the call raises [RuntimeError]. *)
Definition add_insecure_port (binds : bool) (address : string) (s : Server)
    : option Server :=
  if binds
  then Some (mkServer (options s) (servicers s) (ports s ++ [address])
                      (started s) (stopped s))
  else None.

Definition server_start (s : Server) : Server :=
  mkServer (options s) (servicers s) (ports s) true (stopped s).

(** [await server.stop(grace)] *)
Definition server_stop (s : Server) : Server :=
  mkServer (options s) (servicers s) (ports s) (started s) true.

(** [await server.wait_for_termination()] is resumed only once the server
    has been stopped. *)
Definition wait_for_termination (s : Server) : task unit :=
  if stopped s then Returned tt else Suspended.

(** The attributes of one actor instance. [run] is [None], or [Some false]
    once assigned [False]; [redis_conn] does not exist before [_run_server]
    assigns it. *)
Record Actor := mkActor {
  run : option bool;
  bind_address : string;
  redis_info : RedisInfo;
  server : Server;
  redis_conn : option RedisConn
}.

Definition set_run (v : option bool) (self : Actor) : Actor :=
  mkActor v (bind_address self) (redis_info self) (server self)
          (redis_conn self).

Definition set_server (s : Server) (self : Actor) : Actor :=
  mkActor (run self) (bind_address self) (redis_info self) s
          (redis_conn self).

Definition set_redis_conn (c : option RedisConn) (self : Actor) : Actor :=
  mkActor (run self) (bind_address self) (redis_info self) (server self) c.

(** What the surroundings of an actor decide for [_run_server]:
    - [url_ok]: whether [aioredis.from_url] accepts the URL built from
      [redis_info]. The client it returns is lazy: awaiting it opens no
      connection, so a Redis that cannot be reached raises nothing in
      [_run_server]; a URL that does not parse raises [ValueError];
    - [listener_binds]: whether [add_insecure_port] can bind the address;
      it cannot, for one, while another socket holds the port without
      [SO_REUSEPORT]. *)
Record Platform := mkPlatform {
  url_ok : bool;
  listener_binds : bool
}.

Module GRPCIngestorActor.

Definition __init__ (redis_info : RedisInfo) (bind_address : string)
    : Actor :=
  let options := [("grpc.so_reuseport", 1%Z)] in
  mkActor None bind_address redis_info (grpc_aio_server options) None.

(** [await aioredis.from_url(...)]: the client, without any connection
    opened, or nothing when the URL does not parse and the call raises
    [ValueError]. *)
Definition from_url (platform : Platform) (info : RedisInfo)
    : option RedisConn :=
  if url_ok platform
  then Some (mkRedisConn
               ("redis://" +:+ REDIS_HOSTNAME info +:+ ":"
                           +:+ REDIS_PORT info)
               true (username info) (password info))
  else None.

Definition _run_server (platform : Platform) (self : Actor)
    : task unit * Actor :=
  match from_url platform (redis_info self) with
  | None => (Raised ValueError, self)
  | Some conn =>
      let self := set_redis_conn (Some conn) self in
      let self :=
        set_server
          (add_LogExportServiceServicer_to_server conn (server self))
          self in
      match add_insecure_port (listener_binds platform) (bind_address self)
              (server self) with
      | None => (Raised RuntimeError, self)
      | Some bound =>
          let self := set_server bound self in
          let self := set_server (server_start (server self)) self in
          (wait_for_termination (server self), self)
      end
  end.

Definition start (platform : Platform) (self : Actor)
    : task unit * Actor :=
  _run_server platform self.

Definition stop (self : Actor) : task unit * Actor :=
  (Returned tt, set_run (Some false) self).

Definition destroy (self : Actor) : task unit * Actor :=
  (Returned tt, set_run (Some false) self).

(** [while True: time.sleep(...)] leaves only through the handler of
    [KeyboardInterrupt]; [interrupted] says whether the signal comes.
    The handler calls [self.server.stop(None)]. On a [grpc.aio] server
    [stop] is a coroutine function, and the handler, in a plain [def],
    does not await the coroutine the call returns: nothing of [stop] runs
    and the server is left as it is. No method and no caller invokes
    [_wait_forever]. *)
Definition _wait_forever (interrupted : bool) (self : Actor)
    : task unit * Actor :=
  if interrupted
  then (Returned tt, self)
  else (Suspended, self).

(** The listener accepts work: started and not stopped. *)
Definition serving (self : Actor) : bool :=
  started (server self) && negb (stopped (server self)).

End GRPCIngestorActor.

(** ** The driver process *)

(** A socket object of the driver. *)
Record Socket := mkSocket {
  sk_reuseport : bool;
  sk_bound : option N;
  sk_closed : bool
}.

Inductive method := Start | Stop | Destroy.

#[global] Instance method_eq_dec : EqDecision method.
Proof. solve_decision. Defined.

(** Actors and sockets are named by their index in the world's tables. *)
Definition handle := nat.

Record World := mkWorld {
  sockets : list Socket;
  actors : list Actor;
  trace : list (handle * method);
  log : list string
}.

Definition init_world : World := mkWorld [] [] [] [].

(** What the platform decides:
    - [setsockopt_reuseport]: the exception raised by
      [sock.setsockopt(socket.SOL_SOCKET, socket.SO_REUSEPORT, 1)], if any
      ([AttributeError] where the [socket] module has no [SO_REUSEPORT]);
    - [port_in_use] and [ephemeral_port]: whether binding a given port
      fails, and the port the system picks when asked for port 0;
    - [worker]: what is decided for [_run_server] in the actors;
    - [ray_get]: how [ray.get(refs)] leaves: [None] when it returns,
      otherwise the exception raised out of the wait. It is not derived
      from the [start] calls waited on: what is proved for every value
      holds for the values the program can produce;
    - [cpu_count]: [multiprocessing.cpu_count()]. *)
Record Env := mkEnv {
  setsockopt_reuseport : option exn;
  port_in_use : N -> bool;
  ephemeral_port : N;
  worker : Platform;
  ray_get : option exn;
  cpu_count : Z;
  secrets_temp_redis_info : RedisInfo
}.

Definition _PROCESS_COUNT (env : Env) : Z := (cpu_count env - 14)%Z.
Definition _THREAD_CONCURRENCY (env : Env) : Z := _PROCESS_COUNT env.

Definition M (A : Type) : Type := World -> outcome A * World.

Definition ret {A} (a : A) : M A := fun w => (Ret a, w).

Definition raise {A} (e : exn) : M A := fun w => (Raise e, w).

Definition bind {A B} (c : M A) (k : A -> M B) : M B :=
  fun w =>
    match c w with
    | (Ret a, w') => k a w'
    | (Raise e, w') => (Raise e, w')
    end.

Notation "x <- c ;; k" := (bind c (fun x => k))
  (at level 100, c at next level, right associativity).
Notation "c ;; k" := (bind c (fun _ => k))
  (at level 100, right associativity).

(** [try: body  except E: handler], where [catches] recognises [E]. *)
Definition try_except {A} (body : M A) (catches : exn -> bool)
    (handler : exn -> M A) : M A :=
  fun w =>
    match body w with
    | (Ret a, w') => (Ret a, w')
    | (Raise e, w') => if catches e then handler e w' else (Raise e, w')
    end.

(** [try: body  finally: cleanup]: the cleanup runs however the body
    leaves, and an exception of the cleanup replaces the body's result. *)
Definition try_finally {A} (body : M A) (cleanup : M unit) : M A :=
  fun w =>
    match body w with
    | (r, w') =>
        match cleanup w' with
        | (Ret _, w'') => (r, w'')
        | (Raise e, w'') => (Raise e, w'')
        end
    end.

(** [for x in xs: f x] *)
Fixpoint for_each {A} (xs : list A) (f : A -> M unit) : M unit :=
  match xs with
  | [] => ret tt
  | x :: xs' => f x ;; for_each xs' f
  end.

(** [[f x for x in xs]] *)
Fixpoint list_comp {A B} (xs : list A) (f : A -> M B) : M (list B) :=
  match xs with
  | [] => ret []
  | x :: xs' => y <- f x ;; ys <- list_comp xs' f ;; ret (y :: ys)
  end.

Definition range (n : nat) : list nat := seq 0 n.

Definition is_AttributeError (e : exn) : bool := bool_decide (e = AttributeError).
Definition is_KeyboardInterrupt (e : exn) : bool :=
  bool_decide (e = KeyboardInterrupt).

Definition str_bool (b : bool) : string := if b then "True" else "False".

Definition set_sockets (l : list Socket) (w : World) : World :=
  mkWorld l (actors w) (trace w) (log w).
Definition set_actors (l : list Actor) (w : World) : World :=
  mkWorld (sockets w) l (trace w) (log w).
Definition set_trace (l : list (handle * method)) (w : World) : World :=
  mkWorld (sockets w) (actors w) l (log w).
Definition set_log (l : list string) (w : World) : World :=
  mkWorld (sockets w) (actors w) (trace w) l.

Definition _LOGGER_info (msg : string) : M unit :=
  fun w => (Ret tt, set_log (log w ++ [msg]) w).

Definition sys_stdout_flush : M unit := ret tt.

Section Driver.

Variable env : Env.

(** *** Sockets *)

(** [socket.socket(socket.AF_INET6, socket.SOCK_STREAM)] *)
Definition socket_socket : M handle :=
  fun w =>
    (Ret (length (sockets w)),
     set_sockets (sockets w ++ [mkSocket false None false]) w).

(** [sock.setsockopt(socket.SOL_SOCKET, socket.SO_REUSEPORT, 1)] *)
Definition sock_setsockopt_reuseport (sock : handle) : M unit :=
  fun w =>
    match setsockopt_reuseport env with
    | Some e => (Raise e, w)
    | None =>
        (Ret tt,
         set_sockets
           (alter (fun s => mkSocket true (sk_bound s) (sk_closed s))
                  sock (sockets w)) w)
    end.

(** The port a bind to [('', port)] gets, if any. *)
Definition os_bind (port : N) : option N :=
  if (port =? 0)%N then Some (ephemeral_port env)
  else if port_in_use env port then None
  else Some port.

(** [sock.bind(('', port))] *)
Definition sock_bind (sock : handle) (port : N) : M unit :=
  fun w =>
    match os_bind port with
    | None => (Raise OSError, w)
    | Some p =>
        (Ret tt,
         set_sockets
           (alter (fun s => mkSocket (sk_reuseport s) (Some p) (sk_closed s))
                  sock (sockets w)) w)
    end.

(** [sock.getsockname()[1]] *)
Definition sock_getsockname_port (sock : handle) : M N :=
  fun w =>
    match sockets w !! sock with
    | Some s =>
        if sk_closed s then (Raise OSError, w)
        else (Ret (default 0%N (sk_bound s)), w)
    | None => (Raise OSError, w)
    end.

(** [sock.close()] *)
Definition sock_close (sock : handle) : M unit :=
  fun w =>
    (Ret tt,
     set_sockets
       (alter (fun s => mkSocket (sk_reuseport s) (sk_bound s) true)
              sock (sockets w)) w).

(** *** Ray *)

(** [GRPCIngestorActor.remote(redis_info, bind_address)]: a new actor,
    constructed by [__init__]; the result is its handle. *)
Definition GRPCIngestorActor_remote (redis_info : RedisInfo)
    (bind_address : string) : M handle :=
  fun w =>
    (Ret (length (actors w)),
     set_actors
       (actors w ++ [GRPCIngestorActor.__init__ redis_info bind_address])
       w).

Definition run_method (m : method) (self : Actor) : Actor :=
  match m with
  | Start => snd (GRPCIngestorActor.start (worker env) self)
  | Stop => snd (GRPCIngestorActor.stop self)
  | Destroy => snd (GRPCIngestorActor.destroy self)
  end.

(** [actor.<m>.remote()]: the call is handed to the actor and the driver
    goes on at once; a failure inside the method stays in the actor and
    shows only through [ray.get]. The dispatch is recorded in [trace],
    and the method's effect on the actor is applied to the actor table. *)
Definition remote (m : method) (actor : handle) : M handle :=
  fun w =>
    (Ret actor,
     set_trace (trace w ++ [(actor, m)])
       (set_actors (alter (run_method m) actor (actors w)) w)).

Definition remote_ (m : method) (actor : handle) : M unit :=
  remote m actor ;; ret tt.

(** [ray.get(refs)] *)
Definition ray_get_refs (refs : list handle) : M unit :=
  fun w =>
    match ray_get env with
    | None => (Ret tt, w)
    | Some e => (Raise e, w)
    end.

(** *** [_reserve_port]

    The generator behind [@contextlib.contextmanager]; [with_body] is
    the block of the [with] statement, entered at the [yield]. An
    exception of the block is raised at the [yield], so the [finally]
    clause runs and the exception goes on. *)
Definition _reserve_port {A} (with_body : N * bool -> M A) : M A :=
  sock <- socket_socket ;;
  (* [supported] is [True] unless the handler assigns [False] *)
  supported <-
    try_except
      (sock_setsockopt_reuseport sock ;; ret true)
      is_AttributeError
      (fun e =>
         _LOGGER_info
           "SO_REUSEPORT not supported on this platform, falling back to single process" ;;
         _LOGGER_info (exn_str e) ;;
         ret false) ;;
  sock_bind sock 50051 ;;
  try_finally
    (port <- sock_getsockname_port sock ;;
     with_body (port, supported))
    (sock_close sock).

(** *** [main] *)

(** Lines 122 to 125: the pool. *)
Definition construct_pool (success : bool) (bind_address : string)
    : M (list handle) :=
  if negb success
  then list_comp (range 1)
         (fun _ => GRPCIngestorActor_remote (secrets_temp_redis_info env)
                     bind_address)
  else list_comp (range 2)
         (fun _ => GRPCIngestorActor_remote (secrets_temp_redis_info env)
                     bind_address).

(** Lines 128 to 136: the [try] statement. *)
Definition supervise (grpc_ingestors : list handle) : M unit :=
  try_finally
    (try_except
       (refs <- list_comp grpc_ingestors (remote Start) ;;
        ray_get_refs refs)
       is_KeyboardInterrupt
       (fun _ => for_each grpc_ingestors (remote_ Stop)))
    (for_each grpc_ingestors (remote_ Destroy)).

(** Lines 115 to 136: the block of the [with] statement. *)
Definition main_body (reserved : N * bool) : M unit :=
  let '(port, success) := reserved in
  _LOGGER_info ("Port " +:+ pretty port +:+ ", success "
                        +:+ str_bool success) ;;
  let bind_address := "localhost:" +:+ pretty port in
  _LOGGER_info ("Binding to '" +:+ bind_address +:+ "'") ;;
  sys_stdout_flush ;;
  grpc_ingestors <- construct_pool success bind_address ;;
  supervise grpc_ingestors.

Definition main : M unit := _reserve_port main_body.

End Driver.

(** ** Auxiliary definitions for the statements *)

(** The world after [actor.<m>.remote()]. *)
Definition dispatch (env : Env) (m : method) (w : World) (actor : handle)
    : World :=
  set_trace (trace w ++ [(actor, m)])
    (set_actors (alter (run_method env m) actor (actors w)) w).

Definition dispatch_all (env : Env) (m : method) (pool : list handle)
    (w : World) : World :=
  foldl (dispatch env m) w pool.

(** The calls of method [m], in the order of the pool. *)
Definition calls (m : method) (pool : list handle)
    : list (handle * method) :=
  (fun h => (h, m)) <$> pool.

(** How often method [m] was dispatched on actor [h] in a trace. *)
Definition count_calls (m : method) (h : handle)
    (t : list (handle * method)) : nat :=
  length (filter (fun ev => ev = (h, m)) t).

(** The handles of the actors constructed between two worlds. *)
Definition constructed (w w' : World) : list handle :=
  seq (length (actors w)) (length (actors w') - length (actors w)).

Definition interrupted (env : Env) : bool :=
  match ray_get env with
  | Some e => is_KeyboardInterrupt e
  | None => false
  end.

(** How the [try] statement leaves: [KeyboardInterrupt] is handled, any
    other exception of the wait goes on after the [finally] clause. *)
Definition supervise_outcome (env : Env) : outcome unit :=
  match ray_get env with
  | None => Ret tt
  | Some e => if is_KeyboardInterrupt e then Ret tt else Raise e
  end.

Definition supervise_world (env : Env) (pool : list handle) (w : World)
    : World :=
  let w1 := dispatch_all env Start pool w in
  let w2 := if interrupted env then dispatch_all env Stop pool w1 else w1 in
  dispatch_all env Destroy pool w2.

Definition pool_size (success : bool) : nat := if success then 2 else 1.

Definition body_log (port : N) (success : bool) : list string :=
  [ "Port " +:+ pretty port +:+ ", success " +:+ str_bool success;
    "Binding to '" +:+ ("localhost:" +:+ pretty port) +:+ "'" ].

(** The world in which the [try] statement of [main] starts. *)
Definition pool_world (env : Env) (port : N) (success : bool) (w : World)
    : World :=
  set_actors
    (actors w ++
     replicate (pool_size success)
       (GRPCIngestorActor.__init__ (secrets_temp_redis_info env)
          ("localhost:" +:+ pretty port)))
    (set_log (log w ++ body_log port success) w).

(** The option step is passed: [setsockopt] succeeds, or raises the
    [AttributeError] that the handler takes. *)
Definition option_passes (env : Env) : bool :=
  match setsockopt_reuseport env with
  | None => true
  | Some e => is_AttributeError e
  end.

(** The value of [supported] after the option step. *)
Definition supported (env : Env) : bool :=
  match setsockopt_reuseport env with
  | None => true
  | Some _ => false
  end.

Definition fallback_log : list string :=
  [ "SO_REUSEPORT not supported on this platform, falling back to single process";
    exn_str AttributeError ].

(** The world once the option step is passed and the probe socket is in
    the state [probe]. *)
Definition probe_world (env : Env) (probe : Socket) (w : World) : World :=
  set_sockets (sockets w ++ [probe])
    (if supported env then w else set_log (log w ++ fallback_log) w).

(** The reservation reaches its [yield]. *)
Definition reserves (env : Env) : bool :=
  option_passes env && negb (port_in_use env 50051).

(** The pool [main] constructs in world [w] when the reservation yields. *)
Definition main_pool (env : Env) (w : World) : list handle :=
  seq (length (actors w)) (pool_size (supported env)).

Definition main_world (env : Env) (w : World) : World :=
  snd (sock_close (length (sockets w))
         (supervise_world env (main_pool env w)
            (pool_world env 50051 (supported env)
               (probe_world env
                  (mkSocket (supported env) (Some 50051%N) false) w)))).

Definition redis_info_example : RedisInfo :=
  mkRedisInfo "redis" "6379" "ingest" "secret".

(** The URL parses and the listener can bind its address. *)
Definition platform_ok : Platform := mkPlatform true true.

(** The URL parses, but the address of the listener is held by a socket
    without [SO_REUSEPORT]. *)
Definition platform_port_held : Platform := mkPlatform true false.

(** [SO_REUSEPORT] available, port 50051 free, the wait interrupted. *)
Definition env_linux : Env :=
  mkEnv None (fun _ => false) 49152%N platform_ok (Some KeyboardInterrupt)
        16 redis_info_example.

(** No [SO_REUSEPORT] in the [socket] module, port 50051 free. The probe
    socket holds the port while the worker starts, so the listener cannot
    be bound and the wait is left by the error of the [start] call. *)
Definition env_no_reuseport : Env :=
  mkEnv (Some AttributeError) (fun _ => false) 49152%N platform_port_held
        (Some RayTaskError) 16 redis_info_example.

(** Port 50051 is taken by another process. *)
Definition env_port_taken : Env :=
  mkEnv None (fun p => (p =? 50051)%N) 49152%N platform_ok
        (Some KeyboardInterrupt) 16 redis_info_example.


(** A worker constructed and never started. *)
Definition created_worker : Actor :=
  GRPCIngestorActor.__init__ redis_info_example "localhost:50051".

(** A worker whose [start] is suspended in [wait_for_termination]. *)
Definition serving_worker : Actor :=
  snd (GRPCIngestorActor.start platform_ok created_worker).

(** A worker whose [start] raised: the listener could not be bound. *)
Definition failed_worker : Actor :=
  snd (GRPCIngestorActor.start platform_port_held created_worker).

(** The worker holds nothing: its listener does not serve and it has no
    connection to the backing store. *)
Definition released (self : Actor) : Prop :=
  GRPCIngestorActor.serving self = false /\ redis_conn self = None.

(** The state in which [main] leaves a worker it constructed with the
    bind address [address]: the state after [__init__], then [start],
    then [stop] when the wait was interrupted, then [destroy]. *)
Definition final_worker (env : Env) (address : string) : Actor :=
  let created :=
    GRPCIngestorActor.__init__ (secrets_temp_redis_info env) address in
  let started := run_method env Start created in
  let halted :=
    if interrupted env then run_method env Stop started else started in
  run_method env Destroy halted.

(** [SO_REUSEPORT] available, port 50051 free, the Redis URL does not
    parse: the wait is left by the error of a [start] call. *)
Definition env_start_fails : Env :=
  mkEnv None (fun _ => false) 49152%N (mkPlatform false true)
        (Some RayTaskError) 16 redis_info_example.

(** [setsockopt] is refused by the kernel. *)
Definition env_option_refused : Env :=
  mkEnv (Some OSError) (fun _ => false) 49152%N platform_ok
        (Some KeyboardInterrupt) 16 redis_info_example.

(** * Properties *)

(** ** What a series of dispatches does to the world *)

Section DispatchFacts.

Variable env : Env.

Lemma for_each_remote m pool w :
  for_each pool (remote_ env m) w = (Ret tt, dispatch_all env m pool w).
Proof.
  revert w. induction pool as [|h pool IH]; intros w; [reflexivity|].
  cbn [for_each dispatch_all foldl]. unfold bind at 1.
  unfold remote_ at 1, bind at 1, remote at 1, ret at 1.
  apply IH.
Qed.

Lemma list_comp_remote m pool w :
  list_comp pool (remote env m) w = (Ret pool, dispatch_all env m pool w).
Proof.
  revert w. induction pool as [|h pool IH]; intros w; [reflexivity|].
  cbn [list_comp dispatch_all foldl]. unfold bind at 1, remote at 1.
  fold (dispatch env m w h). unfold bind at 1. rewrite IH. reflexivity.
Qed.

Lemma trace_dispatch_all m pool w :
  trace (dispatch_all env m pool w) = trace w ++ calls m pool.
Proof.
  revert w. induction pool as [|h pool IH]; intros w.
  - cbn. by rewrite app_nil_r.
  - cbn [dispatch_all foldl]. fold (dispatch_all env m pool (dispatch env m w h)).
    rewrite IH. cbn. by rewrite <- app_assoc.
Qed.

Lemma sockets_dispatch_all m pool w :
  sockets (dispatch_all env m pool w) = sockets w.
Proof.
  revert w. induction pool as [|h pool IH]; intros w; [reflexivity|].
  cbn [dispatch_all foldl]. fold (dispatch_all env m pool (dispatch env m w h)).
  by rewrite IH.
Qed.

Lemma log_dispatch_all m pool w :
  log (dispatch_all env m pool w) = log w.
Proof.
  revert w. induction pool as [|h pool IH]; intros w; [reflexivity|].
  cbn [dispatch_all foldl]. fold (dispatch_all env m pool (dispatch env m w h)).
  by rewrite IH.
Qed.

(** No method assigns [bind_address]. *)
Lemma bind_address_run_method m self :
  bind_address (run_method env m self) = bind_address self.
Proof.
  destruct m; cbn; try reflexivity.
  unfold GRPCIngestorActor.start, GRPCIngestorActor._run_server.
  destruct (GRPCIngestorActor.from_url _ _); [|reflexivity].
  by destruct (add_insecure_port _ _ _).
Qed.

Lemma addresses_dispatch_all m pool w :
  bind_address <$> actors (dispatch_all env m pool w)
  = bind_address <$> actors w.
Proof.
  revert w. induction pool as [|h pool IH]; intros w; [reflexivity|].
  cbn [dispatch_all foldl]. fold (dispatch_all env m pool (dispatch env m w h)).
  rewrite IH. cbn.
  apply list_eq; intros i. rewrite !list_lookup_fmap.
  destruct (decide (h = i)) as [->|Hne].
  - rewrite list_lookup_alter_eq.
    destruct (actors w !! i); cbn; [|reflexivity].
    by rewrite bind_address_run_method.
  - by rewrite list_lookup_alter_ne.
Qed.

Lemma length_actors_dispatch_all m pool w :
  length (actors (dispatch_all env m pool w)) = length (actors w).
Proof.
  rewrite <- (length_fmap bind_address), addresses_dispatch_all.
  by rewrite length_fmap.
Qed.

End DispatchFacts.

(** ** The supervisor's [try] statement, the pool and the [with] block *)

Section SupervisorFacts.

Variable env : Env.

Lemma supervise_eq pool w :
  supervise env pool w = (supervise_outcome env, supervise_world env pool w).
Proof.
  unfold supervise, try_finally, try_except, supervise_outcome,
    supervise_world, interrupted.
  unfold bind at 1. rewrite list_comp_remote. unfold ray_get_refs.
  destruct (ray_get env) as [e|].
  - destruct (is_KeyboardInterrupt e).
    + rewrite !for_each_remote. reflexivity.
    + rewrite for_each_remote. reflexivity.
  - rewrite for_each_remote. reflexivity.
Qed.

Lemma construct_pool_eq success addr w :
  construct_pool env success addr w
  = (Ret (seq (length (actors w)) (pool_size success)),
     set_actors
       (actors w ++
        replicate (pool_size success)
          (GRPCIngestorActor.__init__ (secrets_temp_redis_info env) addr))
       w).
Proof.
  destruct w as [sk ac tr lg].
  destruct success; cbn; unfold set_actors; cbn;
    rewrite ?length_app, <- ?app_assoc; cbn;
    rewrite ?Nat.add_1_r; reflexivity.
Qed.

Lemma main_body_eq port success w :
  main_body env (port, success) w
  = (supervise_outcome env,
     supervise_world env (seq (length (actors w)) (pool_size success))
       (pool_world env port success w)).
Proof.
  unfold main_body, pool_world.
  unfold bind at 1, _LOGGER_info at 1.
  unfold bind at 1, _LOGGER_info at 1.
  unfold bind at 1, sys_stdout_flush, ret at 1.
  unfold bind at 1. rewrite construct_pool_eq.
  rewrite supervise_eq. destruct w as [sk ac tr lg]; cbn.
  unfold body_log. by rewrite <- app_assoc.
Qed.

End SupervisorFacts.

(** ** The reservation *)

Section ReservationFacts.

Variable env : Env.

Lemma alter_new_socket (f : Socket -> Socket) (l : list Socket) s :
  alter f (length l) (l ++ [s]) = l ++ [f s].
Proof.
  rewrite alter_app_r_alt by lia. by rewrite Nat.sub_diag.
Qed.

(** An exception of [setsockopt] other than [AttributeError] leaves the
    generator before the bind. *)
Lemma reserve_port_option_error {A} (body : N * bool -> M A) w e :
  setsockopt_reuseport env = Some e ->
  e <> AttributeError ->
  _reserve_port env body w
  = (Raise e,
     set_sockets (sockets w ++ [mkSocket false None false]) w).
Proof.
  intros He Hne. unfold _reserve_port.
  unfold bind at 1, socket_socket. unfold bind at 1, try_except.
  unfold bind at 1, sock_setsockopt_reuseport. rewrite He.
  unfold is_AttributeError. by rewrite bool_decide_eq_false_2.
Qed.

(** Past the option step, a taken port makes [bind] raise [OSError] out of
    the generator: the [try] statement with the [finally] clause has not
    been entered. *)
Lemma reserve_port_bind_error {A} (body : N * bool -> M A) w :
  option_passes env = true ->
  port_in_use env 50051 = true ->
  _reserve_port env body w
  = (Raise OSError,
     probe_world env (mkSocket (supported env) None false) w).
Proof.
  unfold probe_world, option_passes, supported. intros Hopt Hport.
  unfold _reserve_port.
  unfold bind at 1, socket_socket. unfold bind at 1, try_except.
  unfold bind at 1, sock_setsockopt_reuseport.
  destruct (setsockopt_reuseport env) as [e|].
  - rewrite Hopt. apply bool_decide_eq_true_1 in Hopt as ->.
    destruct w as [sk ac tr lg]. cbn.
    unfold bind at 1, sock_bind, os_bind. cbn. rewrite Hport.
    unfold set_log, set_sockets, fallback_log. cbn. by rewrite <- app_assoc.
  - destruct w as [sk ac tr lg]. cbn. rewrite alter_new_socket.
    unfold bind at 1, sock_bind, os_bind. cbn. by rewrite Hport.
Qed.

(** Past the option step and with the port free, the block of the [with]
    statement is entered with [(50051, supported)], the probe socket bound
    and open, inside the [try] statement whose [finally] clause closes
    the socket. *)
Lemma reserve_port_yields {A} (body : N * bool -> M A) w :
  option_passes env = true ->
  port_in_use env 50051 = false ->
  _reserve_port env body w
  = try_finally (body (50051%N, supported env))
      (sock_close (length (sockets w)))
      (probe_world env (mkSocket (supported env) (Some 50051%N) false) w).
Proof.
  unfold probe_world, option_passes, supported. intros Hopt Hport.
  unfold _reserve_port.
  unfold bind at 1, socket_socket. unfold bind at 1, try_except.
  unfold bind at 1, sock_setsockopt_reuseport.
  destruct (setsockopt_reuseport env) as [e|].
  - rewrite Hopt. apply bool_decide_eq_true_1 in Hopt as ->.
    destruct w as [sk ac tr lg]. cbn.
    unfold bind at 1, sock_bind, os_bind. cbn. rewrite Hport.
    rewrite alter_new_socket. cbn.
    unfold try_finally, bind at 1, sock_getsockname_port. cbn.
    rewrite list_lookup_middle by reflexivity. cbn.
    unfold set_log, set_sockets, fallback_log. cbn. by rewrite <- app_assoc.
  - destruct w as [sk ac tr lg]. cbn. rewrite alter_new_socket.
    unfold bind at 1, sock_bind, os_bind. cbn. rewrite Hport.
    rewrite alter_new_socket. cbn.
    unfold try_finally, bind at 1, sock_getsockname_port. cbn.
    rewrite list_lookup_middle by reflexivity. reflexivity.
Qed.

End ReservationFacts.

(** ** [main] as a whole *)

Section MainFacts.

Variable env : Env.

Lemma main_reserved w :
  reserves env = true ->
  main env w = (supervise_outcome env, main_world env w).
Proof.
  unfold reserves. intros [Hopt Hport%negb_true_iff]%andb_true_iff.
  unfold main, main_world. rewrite (reserve_port_yields env) by done.
  unfold try_finally. rewrite main_body_eq.
  unfold main_pool, probe_world. by destruct (supported env).
Qed.

Lemma main_not_reserved w :
  reserves env = false ->
  exists e w',
    main env w = (Raise e, w') /\ actors w' = actors w /\ trace w' = trace w.
Proof.
  unfold reserves, main. intros Hres.
  destruct (option_passes env) eqn:Hopt.
  - destruct (port_in_use env 50051) eqn:Hport; [|done].
    rewrite (reserve_port_bind_error env) by done.
    eexists _, _. split; [reflexivity|].
    unfold probe_world. by destruct (supported env).
  - unfold option_passes in Hopt.
    destruct (setsockopt_reuseport env) as [e|] eqn:He; [|done].
    rewrite (reserve_port_option_error env _ w e); [by eauto|done|].
    intros ->. done.
Qed.

Lemma trace_supervise_world pool w :
  trace (supervise_world env pool w)
  = trace w ++ calls Start pool
      ++ (if interrupted env then calls Stop pool else [])
      ++ calls Destroy pool.
Proof.
  unfold supervise_world. rewrite trace_dispatch_all.
  destruct (interrupted env); rewrite !trace_dispatch_all.
  - by rewrite <- !app_assoc.
  - by rewrite <- !app_assoc.
Qed.

Lemma addresses_supervise_world pool w :
  bind_address <$> actors (supervise_world env pool w)
  = bind_address <$> actors w.
Proof.
  unfold supervise_world. rewrite addresses_dispatch_all.
  destruct (interrupted env); by rewrite !addresses_dispatch_all.
Qed.

Lemma sockets_supervise_world pool w :
  sockets (supervise_world env pool w) = sockets w.
Proof.
  unfold supervise_world. rewrite sockets_dispatch_all.
  destruct (interrupted env); by rewrite !sockets_dispatch_all.
Qed.

Lemma trace_main_world w :
  trace (main_world env w)
  = trace w ++ calls Start (main_pool env w)
      ++ (if interrupted env then calls Stop (main_pool env w) else [])
      ++ calls Destroy (main_pool env w).
Proof.
  unfold main_world. cbn. rewrite trace_supervise_world.
  unfold probe_world. by destruct (supported env).
Qed.

Lemma addresses_main_world w :
  bind_address <$> actors (main_world env w)
  = (bind_address <$> actors w)
      ++ replicate (pool_size (supported env)) "localhost:50051".
Proof.
  unfold main_world. cbn. rewrite addresses_supervise_world.
  unfold pool_world. cbn. rewrite fmap_app, fmap_replicate. cbn.
  unfold probe_world. by destruct (supported env).
Qed.

Lemma sockets_main_world w :
  sockets (main_world env w)
  = sockets w ++ [mkSocket (supported env) (Some 50051%N) true].
Proof.
  unfold main_world. cbn. rewrite sockets_supervise_world.
  unfold pool_world, probe_world. cbn.
  destruct (supported env); cbn; by rewrite alter_new_socket.
Qed.

Lemma constructed_main_world w :
  constructed w (main_world env w) = main_pool env w.
Proof.
  unfold constructed, main_pool.
  rewrite <- !(length_fmap bind_address), addresses_main_world.
  rewrite length_app, length_replicate. f_equal. lia.
Qed.

(** Whatever the platform does, the calls [main] dispatches are the
    [start] calls on the pool it constructed, then the [stop] calls when
    the wait was interrupted, then the [destroy] calls. *)
Lemma trace_main w :
  let w' := snd (main env w) in
  trace w'
  = trace w ++ calls Start (constructed w w')
      ++ (if interrupted env then calls Stop (constructed w w') else [])
      ++ calls Destroy (constructed w w').
Proof.
  cbv zeta. destruct (reserves env) eqn:Hres.
  - rewrite main_reserved by done. cbn [snd].
    rewrite constructed_main_world. apply trace_main_world.
  - destruct (main_not_reserved w Hres) as (e & w' & -> & Hac & Htr).
    cbn [snd]. unfold constructed. rewrite Hac, Htr, Nat.sub_diag. cbn.
    destruct (interrupted env); by rewrite app_nil_r.
Qed.

End MainFacts.

(** ** Counting calls *)

Lemma count_calls_app m h t1 t2 :
  count_calls m h (t1 ++ t2) = count_calls m h t1 + count_calls m h t2.
Proof. unfold count_calls. by rewrite filter_app, length_app. Qed.

Lemma count_calls_other m m' h pool :
  m <> m' -> count_calls m h (calls m' pool) = 0.
Proof.
  intros Hne. unfold count_calls, calls.
  induction pool as [|x pool IH]; [reflexivity|].
  cbn [fmap list_fmap]. rewrite filter_cons_False; [exact IH|].
  intros [= _ Heq]. by apply Hne.
Qed.

Lemma count_calls_absent m h pool :
  ~ elem_of h pool -> count_calls m h (calls m pool) = 0.
Proof.
  unfold count_calls, calls.
  induction pool as [|x pool IH]; intros Hnot; [reflexivity|].
  apply not_elem_of_cons in Hnot as [Hx Hpool].
  cbn [fmap list_fmap]. rewrite filter_cons_False; [by apply IH|].
  intros [= Heq]. by apply Hx.
Qed.

Lemma count_calls_same m h pool :
  NoDup pool ->
  count_calls m h (calls m pool) = if bool_decide (elem_of h pool) then 1 else 0.
Proof.
  induction 1 as [|x pool Hx Hnd IH].
  - reflexivity.
  - destruct (decide (h = x)) as [->|Hne].
    + rewrite bool_decide_eq_true_2 by (apply elem_of_cons; by left).
      change (calls m (x :: pool)) with ([(x, m)] ++ calls m pool).
      rewrite count_calls_app, (count_calls_absent m x pool Hx).
      unfold count_calls. by rewrite filter_cons_True.
    + change (calls m (x :: pool)) with ([(x, m)] ++ calls m pool).
      rewrite count_calls_app, IH.
      unfold count_calls at 1. rewrite filter_cons_False by congruence.
      cbn. rewrite (bool_decide_ext (elem_of h (x :: pool)) (elem_of h pool)); [done|].
      rewrite elem_of_cons. split; [intros [?|?]; [congruence|done]|by right].
Qed.

Lemma lookup_calls m m' pool i h :
  calls m pool !! i = Some (h, m') -> m' = m.
Proof.
  unfold calls. rewrite list_lookup_fmap.
  destruct (pool !! i); cbn; congruence.
Qed.

Lemma length_calls m pool : length (calls m pool) = length pool.
Proof. unfold calls. by rewrite length_fmap. Qed.

(** In a trace of start calls, stop calls and destroy calls, in this
    order, every stop call comes before every destroy call. *)
Lemma stop_before_destroy pool i j h h' :
  let t := calls Start pool ++ calls Stop pool ++ calls Destroy pool in
  t !! i = Some (h, Stop) -> t !! j = Some (h', Destroy) -> i < j.
Proof.
  cbv zeta. rewrite !lookup_app_Some, !length_calls.
  intros [Hi|[_ [Hi|[_ Hi]]]] [Hj|[Hj1 [Hj|[Hj2 Hj]]]];
    try (apply lookup_calls in Hi; congruence);
    try (apply lookup_calls in Hj; congruence).
  apply lookup_lt_Some in Hi. rewrite length_calls in Hi. lia.
Qed.

(** ** The supervisor: cleanup and interruption *)

(** C1. However the wait of [main] ends (the platform [env] fixes whether
    [ray.get] returns, raises [KeyboardInterrupt] or raises anything
    else, and also whether the reservation succeeds), the calls [main]
    dispatches contain exactly one [destroy] for every actor it
    constructed, and none for any other handle. *)
Theorem main_destroys_every_worker_once (env : Env) (w : World) :
  let w' := snd (main env w) in
  exists t,
    trace w' = trace w ++ t /\
    forall h,
      count_calls Destroy h t
      = if bool_decide (elem_of h (constructed w w')) then 1 else 0.
Proof.
  cbv zeta. eexists. split; [apply trace_main|].
  intros h. rewrite !count_calls_app.
  rewrite count_calls_other by done.
  rewrite count_calls_same by apply NoDup_seq.
  destruct (interrupted env); cbn [count_calls filter length];
    rewrite ?count_calls_other by done; reflexivity.
Qed.

(** C7. When the reservation has yielded and the wait on the [start]
    calls is left by [KeyboardInterrupt], [main] returns normally, and
    the calls it dispatched are: [start] on every constructed worker,
    then [stop] on every constructed worker, then [destroy] on every
    constructed worker. So every [stop] call comes before every
    [destroy] call, and each worker gets one of each. *)
Theorem main_interrupted_stops_then_destroys (env : Env) (w : World) :
  reserves env = true ->
  ray_get env = Some KeyboardInterrupt ->
  let w' := snd (main env w) in
  let pool := constructed w w' in
  let t := calls Start pool ++ calls Stop pool ++ calls Destroy pool in
  fst (main env w) = Ret tt /\
  pool <> [] /\
  trace w' = trace w ++ t /\
  (forall h, elem_of h pool ->
     count_calls Stop h t = 1 /\ count_calls Destroy h t = 1) /\
  (forall i j h h',
     t !! i = Some (h, Stop) -> t !! j = Some (h', Destroy) -> i < j).
Proof.
  intros Hres Hint. cbv zeta.
  assert (Hi : interrupted env = true) by (unfold interrupted; by rewrite Hint).
  split; [|split; [|split; [|split]]].
  - rewrite main_reserved by done. cbn.
    unfold supervise_outcome. by rewrite Hint.
  - rewrite main_reserved by done. cbn [snd].
    rewrite constructed_main_world. unfold main_pool.
    by destruct (supported env).
  - rewrite (trace_main env w). cbv zeta. by rewrite Hi.
  - intros h Hh. rewrite !count_calls_app.
    rewrite !count_calls_same by apply NoDup_seq.
    rewrite !count_calls_other by done.
    by rewrite bool_decide_eq_true_2.
  - apply stop_before_destroy.
Qed.

Lemma main_interrupted_stops_then_destroys_witness :
  reserves env_linux = true /\
  ray_get env_linux = Some KeyboardInterrupt /\
  fst (main env_linux init_world) = Ret tt /\
  trace (snd (main env_linux init_world))
  = [(0, Start); (1, Start); (0, Stop); (1, Stop);
     (0, Destroy); (1, Destroy)].
Proof.
  split; [reflexivity|]. split; [reflexivity|].
  destruct (main_interrupted_stops_then_destroys env_linux init_world)
    as (Hret & _ & Htrace & _); [reflexivity|reflexivity|].
  split; [exact Hret|]. rewrite Htrace. reflexivity.
Defined.

(** ** The pool *)

(** C3. Whatever pair [(port, success)] the block of the [with] statement
    receives, it constructs one actor when [success] is false and two
    when it is true, and every one of them is constructed with the bind
    address ["localhost:<port>"]. No actor that existed before is given
    another address. *)
Theorem pool_size_and_bind_address (env : Env) (port : N) (success : bool)
    (w : World) :
  let w' := snd (main_body env (port, success) w) in
  length (constructed w w') = (if success then 2 else 1) /\
  bind_address <$> actors w'
  = (bind_address <$> actors w)
      ++ replicate (if success then 2 else 1) ("localhost:" +:+ pretty port).
Proof.
  cbv zeta. rewrite main_body_eq. cbn [snd].
  assert (Haddr :
    bind_address <$>
      actors (supervise_world env (seq (length (actors w)) (pool_size success))
                (pool_world env port success w))
    = (bind_address <$> actors w)
        ++ replicate (pool_size success) ("localhost:" +:+ pretty port)).
  { rewrite addresses_supervise_world. unfold pool_world. cbn.
    by rewrite fmap_app, fmap_replicate. }
  split; [|exact Haddr].
  apply (f_equal length) in Haddr.
  rewrite length_app, length_replicate, !length_fmap in Haddr.
  unfold constructed. rewrite length_seq, Haddr. unfold pool_size. lia.
Qed.

(** ** The reservation *)




(** C2, at a platform where port 50051 is taken. [bind] raises [OSError]
    before the [try] statement whose [finally] clause closes the socket
    is entered: the exception leaves [_reserve_port], and so [main], with
    the probe socket created, unbound and not closed. *)
Theorem reserve_port_bind_failure_leaves_socket_open :
  _reserve_port env_port_taken ret init_world
  = (Raise OSError, mkWorld [mkSocket true None false] [] [] [])
  /\
  main env_port_taken init_world
  = (Raise OSError, mkWorld [mkSocket true None false] [] [] []).
Proof. split; reflexivity. Qed.

(** Where the bind succeeds, the [finally] clause does close the probe
    socket, however the block of the [with] statement in [main] leaves. *)
Lemma main_closes_bound_probe_socket (env : Env) (w : World) :
  reserves env = true ->
  sockets (snd (main env w))
  = sockets w ++ [mkSocket (supported env) (Some 50051%N) true].
Proof.
  intros Hres. rewrite main_reserved by done. apply sockets_main_world.
Qed.

(** While the block of the [with] statement runs, and so while the
    workers are constructed and started, the probe socket is still open:
    it is closed when the block is left. *)
Lemma probe_socket_open_inside_with (env : Env) (w : World) :
  reserves env = true ->
  _reserve_port env (fun _ w1 => (Ret (sockets w1), w1)) w
  = (Ret (sockets w ++ [mkSocket (supported env) (Some 50051%N) false]),
     probe_world env (mkSocket (supported env) (Some 50051%N) true) w).
Proof.
  unfold reserves. intros [Hopt Hport%negb_true_iff]%andb_true_iff.
  rewrite (reserve_port_yields env) by done.
  unfold try_finally, sock_close, probe_world. cbn.
  by rewrite alter_new_socket.
Qed.




(** ** The worker's [stop] and [destroy] *)

(** C5, at a worker whose server is serving. [stop] assigns [run] and
    nothing else: the server is the one it was, it still serves, and
    [wait_for_termination] is still suspended. *)
Theorem stop_leaves_server_serving :
  GRPCIngestorActor.serving serving_worker = true /\
  fst (GRPCIngestorActor.stop serving_worker) = Returned tt /\
  run (snd (GRPCIngestorActor.stop serving_worker)) = Some false /\
  server (snd (GRPCIngestorActor.stop serving_worker))
  = server serving_worker /\
  GRPCIngestorActor.serving (snd (GRPCIngestorActor.stop serving_worker))
  = true /\
  wait_for_termination
    (server (snd (GRPCIngestorActor.stop serving_worker)))
  = Suspended.
Proof. repeat split. Qed.

(** C6, as stated, at a worker whose server is serving: after [destroy]
    the listener still serves and the worker still holds its connection
    to the backing store. *)
Lemma destroy_releases_counterexample :
  ~ released (snd (GRPCIngestorActor.destroy serving_worker)) /\
  GRPCIngestorActor.serving (snd (GRPCIngestorActor.destroy serving_worker))
  = true /\
  redis_conn (snd (GRPCIngestorActor.destroy serving_worker))
  = Some (mkRedisConn "redis://redis:6379" true "ingest" "secret").
Proof.
  split; [|split; reflexivity].
  intros [Hserving _]. vm_compute in Hserving. discriminate Hserving.
Qed.

(** C6, amended. In every state of the worker, [destroy] returns without
    raising, leaves [run] assigned [False], and does not touch the
    connection to the backing store. This holds in particular for a
    worker that was never started and for one whose [start] raised. *)
Theorem destroy_is_safe_and_marks_stopped (self : Actor) :
  (fst (GRPCIngestorActor.destroy self) = Returned tt /\
   run (snd (GRPCIngestorActor.destroy self)) = Some false /\
   redis_conn (snd (GRPCIngestorActor.destroy self)) = redis_conn self)
  /\
  (forall info address platform,
     let created := GRPCIngestorActor.__init__ info address in
     let started := snd (GRPCIngestorActor.start platform created) in
     fst (GRPCIngestorActor.destroy created) = Returned tt /\
     fst (GRPCIngestorActor.destroy started) = Returned tt /\
     redis_conn (snd (GRPCIngestorActor.destroy created)) = None /\
     redis_conn (snd (GRPCIngestorActor.destroy started))
     = GRPCIngestorActor.from_url platform info).
Proof.
  split; [repeat split|].
  intros info address platform. cbv zeta.
  repeat split.
  unfold GRPCIngestorActor.start, GRPCIngestorActor._run_server.
  cbn [redis_info GRPCIngestorActor.__init__].
  destruct (GRPCIngestorActor.from_url platform info); [|reflexivity].
  by destruct (add_insecure_port _ _ _).
Qed.

(** C9. [stop] never raises, and on a worker on which [stop] or [destroy]
    has been called it changes nothing: calling it again gives the state
    the first call gave. The same holds for the actor table of the driver
    when [stop] is dispatched twice. *)
Theorem stop_idempotent (self : Actor) :
  fst (GRPCIngestorActor.stop self) = Returned tt /\
  GRPCIngestorActor.stop (snd (GRPCIngestorActor.stop self))
  = GRPCIngestorActor.stop self /\
  GRPCIngestorActor.stop (snd (GRPCIngestorActor.destroy self))
  = (Returned tt, snd (GRPCIngestorActor.destroy self)) /\
  (forall env w h,
     actors (dispatch env Stop (dispatch env Stop w h) h)
     = actors (dispatch env Stop w h)).
Proof.
  repeat split.
  intros env w h. cbn. rewrite list_alter_alter_eq.
  by apply list_alter_ext.
Qed.

(** C10. [stop] and [destroy] assign [run] and nothing else: the bind
    address, the Redis parameters, the server (its options, servicers,
    ports, and whether it was started or stopped) and the Redis
    connection are the ones the worker had. So a [start] call suspended
    in [wait_for_termination] stays suspended after either call. *)
Theorem stop_destroy_frame (self : Actor) :
  GRPCIngestorActor.stop self = (Returned tt, set_run (Some false) self) /\
  GRPCIngestorActor.destroy self = (Returned tt, set_run (Some false) self) /\
  (let self' := set_run (Some false) self in
   run self' = Some false /\
   bind_address self' = bind_address self /\
   redis_info self' = redis_info self /\
   server self' = server self /\
   redis_conn self' = redis_conn self /\
   GRPCIngestorActor.serving self' = GRPCIngestorActor.serving self /\
   wait_for_termination (server self') = wait_for_termination (server self))
  /\
  (forall platform created,
     self = snd (GRPCIngestorActor.start platform created) ->
     fst (GRPCIngestorActor.start platform created) = Suspended ->
     wait_for_termination (server (snd (GRPCIngestorActor.stop self)))
     = Suspended /\
     wait_for_termination (server (snd (GRPCIngestorActor.destroy self)))
     = Suspended).
Proof.
  split; [reflexivity|]. split; [reflexivity|]. split; [repeat split|].
  intros platform created -> Hsusp. cbn [snd GRPCIngestorActor.stop
    GRPCIngestorActor.destroy set_run server].
  revert Hsusp.
  unfold GRPCIngestorActor.start, GRPCIngestorActor._run_server.
  destruct (GRPCIngestorActor.from_url platform (redis_info created));
    cbn [fst snd]; [|discriminate].
  destruct (add_insecure_port _ _ _); cbn [fst snd]; [|discriminate].
  intros Hsusp. by rewrite Hsusp.
Qed.

Lemma stop_destroy_frame_witness :
  serving_worker
  = snd (GRPCIngestorActor.start platform_ok created_worker) /\
  fst (GRPCIngestorActor.start platform_ok created_worker) = Suspended /\
  wait_for_termination
    (server (snd (GRPCIngestorActor.stop serving_worker))) = Suspended /\
  wait_for_termination
    (server (snd (GRPCIngestorActor.destroy serving_worker))) = Suspended.
Proof.
  split; [reflexivity|]. split; [reflexivity|].
  destruct (stop_destroy_frame serving_worker) as (_ & _ & _ & Hblocked).
  apply (Hblocked platform_ok created_worker); reflexivity.
Defined.

(** * Further properties of the code *)

(** ** The actor table under dispatch *)

Section ActorTableFacts.

Variable env : Env.

(** Dispatching [m] once on each handle of a duplicate-free pool applies
    the method to exactly the actors of the pool. *)
Lemma actors_dispatch_all_lookup m pool w i :
  NoDup pool ->
  actors (dispatch_all env m pool w) !! i
  = if bool_decide (elem_of i pool)
    then run_method env m <$> actors w !! i
    else actors w !! i.
Proof.
  intros Hnd. revert w. induction Hnd as [|h pool Hh Hnd IH]; intros w.
  - reflexivity.
  - cbn [dispatch_all foldl].
    fold (dispatch_all env m pool (dispatch env m w h)).
    rewrite IH. cbn [dispatch actors set_trace set_actors].
    destruct (decide (i = h)) as [->|Hne].
    + rewrite (bool_decide_eq_false_2 _ Hh).
      rewrite bool_decide_eq_true_2 by (apply elem_of_cons; by left).
      apply list_lookup_alter_eq.
    + rewrite list_lookup_alter_ne by congruence.
      rewrite (bool_decide_ext (elem_of i (h :: pool)) (elem_of i pool));
        [done|].
      rewrite elem_of_cons. split; [intros [?|?]; [congruence|done]|by right].
Qed.

(** On a table that ends with [n] copies of one actor, dispatching [m] on
    the handles of these copies replaces each by its image and leaves the
    actors before them as they were. *)
Lemma actors_dispatch_all_new m (l : list Actor) n a w :
  actors w = l ++ replicate n a ->
  actors (dispatch_all env m (seq (length l) n) w)
  = l ++ replicate n (run_method env m a).
Proof.
  intros Hw. apply list_eq. intros i.
  rewrite actors_dispatch_all_lookup by apply NoDup_seq. rewrite Hw.
  destruct (decide (i < length l)) as [Hlt|Hge].
  - rewrite bool_decide_eq_false_2 by (rewrite elem_of_seq; lia).
    by rewrite !lookup_app_l.
  - rewrite !lookup_app_r by lia.
    destruct (decide (i - length l < n)) as [Hin|Hout].
    + rewrite bool_decide_eq_true_2 by (rewrite elem_of_seq; lia).
      by rewrite !lookup_replicate_2.
    + rewrite bool_decide_eq_false_2 by (rewrite elem_of_seq; lia).
      assert (Hn : n <= i - length l) by lia.
      rewrite (proj1 (lookup_replicate_None n a _) Hn).
      by rewrite (proj1 (lookup_replicate_None n _ _) Hn).
Qed.

Lemma actors_main_world w :
  actors (main_world env w)
  = actors w
      ++ replicate (pool_size (supported env))
           (final_worker env "localhost:50051").
Proof.
  unfold main_world, main_pool, supervise_world, final_worker.
  cbn [snd sock_close actors set_sockets].
  set (n := pool_size (supported env)).
  set (a0 := GRPCIngestorActor.__init__ (secrets_temp_redis_info env)
               "localhost:50051").
  set (w0 := pool_world env 50051 (supported env)
               (probe_world env
                  (mkSocket (supported env) (Some 50051%N) false) w)).
  assert (H0 : actors w0 = actors w ++ replicate n a0).
  { unfold w0, pool_world, probe_world. cbn.
    by destruct (supported env). }
  pose proof (actors_dispatch_all_new Start _ _ _ _ H0) as H1.
  destruct (interrupted env).
  - pose proof (actors_dispatch_all_new Stop _ _ _ _ H1) as H2.
    exact (actors_dispatch_all_new Destroy _ _ _ _ H2).
  - exact (actors_dispatch_all_new Destroy _ _ _ _ H1).
Qed.

End ActorTableFacts.

(** ** What [main] leaves behind *)

(** X1. Whatever the platform does, [main] changes no actor that existed
    before, and every worker it constructed was given, and still has when
    [main] is left, the bind address ["localhost:50051"], the Redis
    parameters of [secrets_temp], and a server created with the option
    [grpc.so_reuseport] set to 1. The option is requested also on a
    platform without [SO_REUSEPORT], where the pool is one worker. *)
Theorem main_actor_frame (env : Env) (w : World) :
  let w' := snd (main env w) in
  take (length (actors w)) (actors w') = actors w /\
  Forall (fun a =>
            bind_address a = "localhost:50051" /\
            redis_info a = secrets_temp_redis_info env /\
            options (server a) = [("grpc.so_reuseport", 1%Z)])
    (drop (length (actors w)) (actors w')).
Proof.
  cbv zeta. destruct (reserves env) eqn:Hres.
  - rewrite main_reserved by done. cbn [snd]. rewrite actors_main_world.
    rewrite take_app_length, drop_app_length.
    split; [reflexivity|]. apply Forall_replicate.
    unfold final_worker, run_method, GRPCIngestorActor.start,
      GRPCIngestorActor._run_server.
    cbn [redis_info GRPCIngestorActor.__init__].
    destruct (GRPCIngestorActor.from_url (worker env)
                (secrets_temp_redis_info env));
      [destruct (listener_binds (worker env))|];
      destruct (interrupted env); repeat split.
  - destruct (main_not_reserved env w Hres) as (e & w' & -> & Hac & _).
    cbn [snd]. rewrite Hac, firstn_all, drop_all.
    split; [reflexivity|constructor].
Qed.


(** ** The order and number of the calls *)

(** X5. [stop] is dispatched only when the wait is left by
    [KeyboardInterrupt]: then once on every worker constructed, and
    otherwise (the wait returns, or raises anything else, or is never
    reached) on none. *)
Theorem main_stops_only_on_interrupt (env : Env) (w : World) :
  let w' := snd (main env w) in
  exists t,
    trace w' = trace w ++ t /\
    forall h,
      count_calls Stop h t
      = if interrupted env && bool_decide (elem_of h (constructed w w'))
        then 1 else 0.
Proof.
  cbv zeta. eexists. split; [apply trace_main|].
  intros h. rewrite !count_calls_app.
  rewrite !count_calls_other by done.
  destruct (interrupted env); cbn [andb].
  - rewrite count_calls_same by apply NoDup_seq.
    destruct (bool_decide _); lia.
  - reflexivity.
Qed.

(** X6. Whatever the platform does, [start] is dispatched exactly once on
    every worker constructed, and every [start] call is dispatched before
    any [stop] or [destroy] call: the whole pool is started before the
    wait, in the order of construction. *)
Theorem main_starts_every_worker_first (env : Env) (w : World) :
  let w' := snd (main env w) in
  exists t,
    trace w' = trace w ++ t /\
    take (length (constructed w w')) t = calls Start (constructed w w') /\
    (forall h,
       count_calls Start h t
       = if bool_decide (elem_of h (constructed w w')) then 1 else 0) /\
    (forall i j h h' m,
       t !! i = Some (h, Start) -> t !! j = Some (h', m) -> m <> Start ->
       i < j).
Proof.
  cbv zeta. eexists. split; [apply trace_main|].
  set (pool := constructed w (snd (main env w))).
  split; [|split].
  - rewrite <- (length_calls Start pool). by rewrite take_app_length.
  - intros h. rewrite !count_calls_app.
    rewrite count_calls_same by apply NoDup_seq.
    rewrite (count_calls_other Start Destroy) by done.
    destruct (interrupted env);
      rewrite ?(count_calls_other Start Stop) by done;
      change (count_calls Start h []) with 0;
      destruct (bool_decide (elem_of h pool)); lia.
  - intros i j h h' m Hi Hj Hm.
    apply lookup_app_Some in Hi as [Hi|[_ Hi]].
    + apply lookup_lt_Some in Hi.
      apply lookup_app_Some in Hj as [Hj|[Hj _]]; [|lia].
      apply lookup_calls in Hj. congruence.
    + exfalso. apply lookup_app_Some in Hi as [Hi|[_ Hi]].
      * destruct (interrupted env).
        -- apply lookup_calls in Hi. congruence.
        -- by rewrite lookup_nil in Hi.
      * apply lookup_calls in Hi. congruence.
Qed.

Lemma main_starts_every_worker_first_witness :
  exists t,
    trace (snd (main env_linux init_world)) = t /\
    t !! 1 = Some (1, Start) /\
    t !! 2 = Some (0, Stop) /\
    1 < 2.
Proof.
  destruct (main_starts_every_worker_first env_linux init_world)
    as (t & Ht & _ & _ & Hord).
  vm_compute in Ht. exists t. split; [subst t; reflexivity|].
  assert (H1 : t !! 1 = Some (1, Start)) by (subst t; reflexivity).
  assert (H2 : t !! 2 = Some (0, Stop)) by (subst t; reflexivity).
  split; [exact H1|]. split; [exact H2|].
  apply (Hord 1 2 1 0 Stop H1 H2). discriminate.
Defined.

(** ** How [main] ends *)

(** X7. [main] returns normally exactly when the reservation reaches its
    [yield] and the wait either returns or is left by
    [KeyboardInterrupt]. *)
Theorem main_returns_iff (env : Env) (w : World) :
  fst (main env w) = Ret tt <->
  reserves env = true /\
  (ray_get env = None \/ ray_get env = Some KeyboardInterrupt).
Proof.
  destruct (reserves env) eqn:Hres.
  - rewrite main_reserved by done. cbn [fst]. unfold supervise_outcome.
    destruct (ray_get env) as [e|].
    + destruct e; cbn; split; try (intros [_ [?|?]]); try discriminate;
        auto.
    + split; auto.
  - destruct (main_not_reserved env w Hres) as (e & w' & -> & _).
    cbn [fst]. split; [discriminate|intros [? _]; discriminate].
Qed.

Lemma main_returns_iff_witness :
  reserves env_linux = true /\
  ray_get env_linux = Some KeyboardInterrupt /\
  fst (main env_linux init_world) = Ret tt.
Proof.
  split; [reflexivity|]. split; [reflexivity|].
  apply (proj2 (main_returns_iff env_linux init_world)).
  split; [reflexivity|right; reflexivity].
Defined.

(** X8. When the reservation reaches its [yield] and the wait raises an
    exception other than [KeyboardInterrupt], [main] raises that very
    exception, after the cleanup: no [stop] call is dispatched, the calls
    are [start] on every worker and then [destroy] on every worker, and
    the probe socket is closed. *)
Theorem main_wait_error_propagates (env : Env) (w : World) (e : exn) :
  reserves env = true ->
  ray_get env = Some e ->
  e <> KeyboardInterrupt ->
  let w' := snd (main env w) in
  let pool := constructed w w' in
  fst (main env w) = Raise e /\
  trace w' = trace w ++ calls Start pool ++ calls Destroy pool /\
  sockets w' = sockets w ++ [mkSocket (supported env) (Some 50051%N) true].
Proof.
  intros Hres Hget Hne. cbv zeta.
  assert (Hi : interrupted env = false).
  { unfold interrupted, is_KeyboardInterrupt. rewrite Hget.
    by apply bool_decide_eq_false_2. }
  split; [|split].
  - rewrite main_reserved by done. cbn [fst].
    unfold supervise_outcome, is_KeyboardInterrupt. rewrite Hget.
    by rewrite bool_decide_eq_false_2.
  - rewrite (trace_main env w). cbv zeta. by rewrite Hi.
  - rewrite main_reserved by done. apply sockets_main_world.
Qed.

Lemma main_wait_error_propagates_witness :
  reserves env_start_fails = true /\
  ray_get env_start_fails = Some RayTaskError /\
  RayTaskError <> KeyboardInterrupt /\
  fst (main env_start_fails init_world) = Raise RayTaskError /\
  trace (snd (main env_start_fails init_world))
  = [(0, Start); (1, Start); (0, Destroy); (1, Destroy)].
Proof.
  split; [reflexivity|]. split; [reflexivity|]. split; [discriminate|].
  destruct (main_wait_error_propagates env_start_fails init_world
              RayTaskError) as (Hraise & Htrace & _);
    [reflexivity|reflexivity|discriminate|].
  split; [exact Hraise|]. rewrite Htrace. reflexivity.
Defined.

(** X9. Only [AttributeError] is taken by the handler around
    [setsockopt]. Any other exception of [setsockopt] leaves [main] at
    once: nothing is logged, no bind is attempted, no worker is
    constructed, no call is dispatched, and the probe socket stays
    unbound and open. *)
Theorem main_option_error_propagates (env : Env) (w : World) (e : exn) :
  setsockopt_reuseport env = Some e ->
  e <> AttributeError ->
  main env w
  = (Raise e, set_sockets (sockets w ++ [mkSocket false None false]) w).
Proof.
  intros He Hne. unfold main. by apply reserve_port_option_error.
Qed.

Lemma main_option_error_propagates_witness :
  setsockopt_reuseport env_option_refused = Some OSError /\
  OSError <> AttributeError /\
  main env_option_refused init_world
  = (Raise OSError, mkWorld [mkSocket false None false] [] [] []).
Proof.
  split; [reflexivity|]. split; [discriminate|].
  apply (main_option_error_propagates env_option_refused init_world OSError);
    [reflexivity|discriminate].
Defined.

(** ** The reservation and the pool *)

(** X10. When the reservation reaches its [yield], the block of the
    [with] statement starts in a world where the probe socket is bound to
    port 50051 and not closed, and where no actor was constructed and no
    call dispatched yet; the probe is closed only in the [finally] clause
    that runs after the block. In [main] the workers are therefore
    constructed and started while the probe socket is open. *)
Theorem with_block_runs_with_probe_open (env : Env) (w : World) :
  reserves env = true ->
  exists w1,
    sockets w1
    = sockets w ++ [mkSocket (supported env) (Some 50051%N) false] /\
    actors w1 = actors w /\
    trace w1 = trace w /\
    forall A (body : N * bool -> M A),
      _reserve_port env body w
      = try_finally (body (50051%N, supported env))
          (sock_close (length (sockets w))) w1.
Proof.
  unfold reserves. intros [Hopt Hport%negb_true_iff]%andb_true_iff.
  exists (probe_world env (mkSocket (supported env) (Some 50051%N) false) w).
  unfold probe_world at 1 2 3.
  repeat split; try (by destruct (supported env)).
  intros A body. by apply reserve_port_yields.
Qed.

Lemma with_block_runs_with_probe_open_witness :
  reserves env_linux = true /\
  exists w1,
    sockets w1 = [mkSocket true (Some 50051%N) false] /\
    _reserve_port env_linux ret init_world
    = try_finally (ret (50051%N, true)) (sock_close 0) w1.
Proof.
  split; [reflexivity|].
  destruct (with_block_runs_with_probe_open env_linux init_world eq_refl)
    as (w1 & Hs & _ & _ & Heq).
  exists w1. split; [exact Hs|]. apply Heq.
Defined.

(** X11. Constructing the pool never raises and starts nothing: it
    returns the fresh, pairwise distinct handles of the actors it appends,
    each of them in the state [__init__] gives (no connection, no port, a
    server created with [grpc.so_reuseport] and not started), and it
    dispatches no call and touches no socket. So all workers exist before
    the first [start] is dispatched. *)
Theorem construct_pool_starts_nothing (env : Env) (success : bool)
    (address : string) (w : World) :
  exists pool w',
    construct_pool env success address w = (Ret pool, w') /\
    pool = seq (length (actors w)) (if success then 2 else 1) /\
    NoDup pool /\
    actors w'
    = actors w
        ++ replicate (length pool)
             (GRPCIngestorActor.__init__ (secrets_temp_redis_info env)
                address) /\
    Forall (fun a => GRPCIngestorActor.serving a = false
                     /\ redis_conn a = None /\ ports (server a) = [])
      (drop (length (actors w)) (actors w')) /\
    trace w' = trace w /\
    sockets w' = sockets w.
Proof.
  eexists _, _. split; [apply construct_pool_eq|].
  split; [reflexivity|]. split; [apply NoDup_seq|].
  rewrite length_seq. split; [reflexivity|].
  split; [|split; reflexivity].
  cbn [actors set_actors]. rewrite drop_app_length.
  apply Forall_replicate. repeat split.
Qed.

(** ** The worker's methods together *)

(** X12. No method reads [run]. So [start] behaves on a worker that was
    stopped or destroyed exactly as on one that was not: calling [stop] or
    [destroy] before [start] gives the state that calling it after
    [start] gives, with the same result of [start], whether [start]
    raises or is left suspended. *)
Theorem start_ignores_stop_and_destroy (platform : Platform)
    (self : Actor) :
  GRPCIngestorActor.start platform (snd (GRPCIngestorActor.stop self))
  = (fst (GRPCIngestorActor.start platform self),
     snd (GRPCIngestorActor.stop
            (snd (GRPCIngestorActor.start platform self)))) /\
  GRPCIngestorActor.start platform (snd (GRPCIngestorActor.destroy self))
  = (fst (GRPCIngestorActor.start platform self),
     snd (GRPCIngestorActor.destroy
            (snd (GRPCIngestorActor.start platform self)))).
Proof.
  assert (Hrun : forall v,
    GRPCIngestorActor.start platform (set_run v self)
    = (fst (GRPCIngestorActor.start platform self),
       set_run v (snd (GRPCIngestorActor.start platform self)))).
  { intros v. unfold GRPCIngestorActor.start, GRPCIngestorActor._run_server.
    cbn [redis_info set_run].
    destruct (GRPCIngestorActor.from_url platform (redis_info self));
      [|reflexivity].
    cbn [bind_address server set_redis_conn set_server].
    by destruct (add_insecure_port _ _ _). }
  split; apply Hrun.
Qed.

(** ** The block of the [with] statement and the log *)

(** X14. However the block of the [with] statement leaves, by returning a
    value or by raising, [_reserve_port] leaves the same way, with the
    same value or exception, once the [finally] clause has closed the
    probe socket; this holds for every block that leaves the socket table
    as it found it. The generator swallows no exception of the block. *)
Theorem reserve_port_closes_after_block (env : Env) (A : Type)
    (body : N * bool -> M A) (w w2 : World) (r : outcome A) :
  reserves env = true ->
  body (50051%N, supported env)
       (probe_world env (mkSocket (supported env) (Some 50051%N) false) w)
  = (r, w2) ->
  sockets w2
  = sockets w ++ [mkSocket (supported env) (Some 50051%N) false] ->
  _reserve_port env body w
  = (r,
     set_sockets
       (sockets w ++ [mkSocket (supported env) (Some 50051%N) true]) w2).
Proof.
  unfold reserves. intros [Hopt Hport%negb_true_iff]%andb_true_iff Hbody Hs.
  rewrite (reserve_port_yields env) by done.
  unfold try_finally. rewrite Hbody. unfold sock_close.
  rewrite Hs, alter_new_socket. reflexivity.
Qed.

Lemma reserve_port_closes_after_block_witness :
  reserves env_linux = true /\
  _reserve_port env_linux (fun _ : N * bool => @raise unit RayTaskError)
    init_world
  = (Raise RayTaskError,
     mkWorld [mkSocket true (Some 50051%N) true] [] [] []).
Proof.
  split; [reflexivity|].
  apply (reserve_port_closes_after_block env_linux unit
           (fun _ => raise RayTaskError) init_world
           (mkWorld [mkSocket true (Some 50051%N) false] [] [] [])
           (Raise RayTaskError)); reflexivity.
Defined.

(** X15. When the reservation reaches its [yield], [main] logs, in this
    order: the two lines of the fallback if [SO_REUSEPORT] is missing (the
    message and the text of the [AttributeError]), then the line with the
    port and the flag, then the line with the bind address. Nothing is logged for the wait, the interrupt or the
    cleanup. *)
Theorem main_log (env : Env) (w : World) :
  reserves env = true ->
  log (snd (main env w))
  = log w
      ++ (if supported env then []
          else [ "SO_REUSEPORT not supported on this platform, falling back to single process";
                 exn_str AttributeError ])
      ++ [ "Port 50051, success " +:+ str_bool (supported env);
           "Binding to 'localhost:50051'" ].
Proof.
  intros Hres. rewrite main_reserved by done.
  unfold main_world, supervise_world. cbn [snd sock_close log set_sockets].
  rewrite log_dispatch_all.
  assert (Hlog : forall w0,
    log (if interrupted env
         then dispatch_all env Stop (main_pool env w)
                (dispatch_all env Start (main_pool env w) w0)
         else dispatch_all env Start (main_pool env w) w0) = log w0).
  { intros w0. destruct (interrupted env); by rewrite !log_dispatch_all. }
  rewrite Hlog. unfold pool_world, probe_world, body_log, fallback_log.
  destruct (supported env); cbn; by rewrite <- ?app_assoc.
Qed.

Lemma main_log_witness :
  reserves env_no_reuseport = true /\
  log (snd (main env_no_reuseport init_world))
  = [ "SO_REUSEPORT not supported on this platform, falling back to single process";
      "module 'socket' has no attribute 'SO_REUSEPORT'";
      "Port 50051, success False";
      "Binding to 'localhost:50051'" ].
Proof.
  split; [reflexivity|].
  rewrite (main_log env_no_reuseport init_world eq_refl). reflexivity.
Defined.
